(** * The General Problem Solver of [paip/gps.py]

    A shallow embedding of the means-ends planner of [src/paip/gps.py]
    ([gps], [achieve_all], [achieve], [apply_operator]) and the properties
    of it that the specification states.

    Modelling choices.
    - A fact (the source calls it a "state") is a string; a list of current
      states is a [list fact]; Python's [x in l] is [mem x l], a scan that
      compares with [==].
    - A function that returns either a list or [None] returns an
      [option (list fact)].  Python's truth test [if not l] holds for [None]
      and for the empty list alike; the model writes both cases out.
    - [achieve], [achieve_all] and [apply_operator] call one another.  The
      recursion is bounded by a fuel that is consumed exactly where the goal
      stack grows (one unit per frame of [apply_operator]);
      [achieve_never_out_of_fuel] shows that a fuel of the number of facts
      that can ever be pushed is enough, and [gps] runs with that fuel.
    - An operator is a record; [gps] appends to the [add] list of every
      operator in place, so [gps] returns, next to its outcome, the operator
      collection as the caller sees it afterwards.  The operators of one
      collection are distinct objects that share no list, as [json.loads]
      builds them.
    - Iterating over [None] raises [TypeError]; an outcome is a returned
      plan or a raised exception.  The calls to [debug] only log and are
      left out.
    - [main] and [check_usage] are embedded over the arguments; what [main]
      prints is a list of lines; reading and decoding the problem file
      ([load_problem]) and whether the logging library accepts a level name
      ([logging_setup_raises]) are functions the command line is given. *)

From Stdlib Require Import List String Ascii Bool Arith Lia.
Import ListNotations.
Open Scope string_scope.
Open Scope list_scope.

(** ** Data *)

Definition fact := string.

Record Operator := mkOperator {
  action : string;
  preconds : list fact;
  add : list fact;
  delete : list fact
}.

(** [x in l] *)
Definition mem (x : fact) (l : list fact) : bool :=
  existsb (String.eqb x) l.

(** [not l], for a list *)
Definition is_empty (l : list fact) : bool :=
  match l with
  | [] => true
  | _ :: _ => false
  end.

(** What a call of one of the three search functions yields: it ran out of
    fuel, or it returned [r] ([None] or a list). *)
Inductive result :=
| OutOfFuel
| Ret (r : option (list fact)).

(** ** The search functions, one level of recursion *)

Section OneLevel.

(** The recursive call [achieve(states, ops, goal, goal_stack)], with the
    operators fixed. *)
Variable achieve_rec : list fact -> fact -> list fact -> result.

(** First loop of [achieve_all] (lines 100-103): achieve each goal in
    order, threading the states; [Ret (Some states)] is the value of
    [states] when the loop ends, [Ret None] is the early [return None]. *)
Fixpoint achieve_each (states : list fact) (goals : list fact)
         (goal_stack : list fact) : result :=
  match goals with
  | [] => Ret (Some states)
  | goal :: rest =>
      match achieve_rec states goal goal_stack with
      | OutOfFuel => OutOfFuel
      | Ret None => Ret None
      | Ret (Some states') =>
          if is_empty states' then Ret None
          else achieve_each states' rest goal_stack
      end
  end.

(** [achieve_all] (lines 90-112): the first loop, then the check that
    every goal still holds. *)
Definition achieve_all_body (states : list fact) (goals : list fact)
           (goal_stack : list fact) : result :=
  match achieve_each states goals goal_stack with
  | OutOfFuel => OutOfFuel
  | Ret None => Ret None
  | Ret (Some states') =>
      if forallb (fun goal => mem goal states') goals
      then Ret (Some states')
      else Ret None
  end.

(** [apply_operator] (lines 152-172). *)
Definition apply_operator_body (operator : Operator) (states : list fact)
           (goal : fact) (goal_stack : list fact) : result :=
  match achieve_all_body states (preconds operator) (goal :: goal_stack) with
  | OutOfFuel => OutOfFuel
  | Ret None => Ret None
  | Ret (Some result) =>
      if is_empty result then Ret None
      else
        Ret (Some (filter (fun state => negb (mem state (delete operator)))
                          result
                   ++ add operator))
  end.

(** The loop of [achieve] (lines 141-149) over the operators still to be
    looked at; falling off its end returns [None]. *)
Fixpoint try_operators (rest_ops : list Operator) (states : list fact)
         (goal : fact) (goal_stack : list fact) : result :=
  match rest_ops with
  | [] => Ret None
  | op :: rest_ops' =>
      if negb (mem goal (add op))
      then try_operators rest_ops' states goal goal_stack
      else
        match apply_operator_body op states goal goal_stack with
        | OutOfFuel => OutOfFuel
        | Ret None => try_operators rest_ops' states goal goal_stack
        | Ret (Some result) =>
            if is_empty result
            then try_operators rest_ops' states goal goal_stack
            else Ret (Some result)
        end
  end.

End OneLevel.

(** ** The search functions *)

(** [achieve] (lines 115-149). *)
Fixpoint achieve (fuel : nat) (states : list fact) (operators : list Operator)
         (goal : fact) (goal_stack : list fact) : result :=
  if mem goal states then Ret (Some states)
  else if mem goal goal_stack then Ret None
  else
    match fuel with
    | 0 => OutOfFuel
    | S fuel' =>
        try_operators (fun s g st => achieve fuel' s operators g st)
                      operators states goal goal_stack
    end.

Definition achieve_all (fuel : nat) (states : list fact) (ops : list Operator)
           (goals : list fact) (goal_stack : list fact) : result :=
  achieve_all_body (fun s g st => achieve fuel s ops g st)
                   states goals goal_stack.

(** The first loop of [achieve_all] on its own. *)
Definition achieve_all_loop (fuel : nat) (states : list fact)
           (ops : list Operator) (goals : list fact) (goal_stack : list fact)
  : result :=
  achieve_each (fun s g st => achieve fuel s ops g st) states goals goal_stack.

Definition apply_operator (fuel : nat) (operator : Operator)
           (states : list fact) (ops : list Operator) (goal : fact)
           (goal_stack : list fact) : result :=
  apply_operator_body (fun s g st => achieve fuel s ops g st)
                      operator states goal goal_stack.

(** ** The entry point *)

Definition prefix : string := "Executing ".

(** [operator['add'].append(prefix + operator['action'])] *)
Definition seed_operator (operator : Operator) : Operator :=
  {| action := action operator;
     preconds := preconds operator;
     add := add operator ++ [String.append prefix (action operator)];
     delete := delete operator |}.

(** The loop of lines 83-84 over the whole collection. *)
Definition seed (operators : list Operator) : list Operator :=
  map seed_operator operators.

(** [state.startswith(prefix)] *)
Definition startswith (state : fact) (p : string) : bool :=
  String.prefix p state.

Inductive exn := TypeError.

Inductive outcome :=
| Returns (plan : list string)
| Raises (e : exn)
| Exhausted.

(** The facts that can be pushed on the goal stack during a solve: the goals
    and the preconditions of the operators.  Their number bounds the depth of
    the recursion. *)
Definition pushable (goal_states : list fact) (operators : list Operator)
  : list fact :=
  goal_states ++ flat_map preconds operators.

Definition depth_bound (goal_states : list fact) (operators : list Operator)
  : nat :=
  List.length (pushable goal_states operators).

(** [gps] (lines 69-87).  The second component is the operator collection
    after the call. *)
Definition gps (initial_states goal_states : list fact)
           (operators : list Operator) : outcome * list Operator :=
  let operators' := seed operators in
  match achieve_all (depth_bound goal_states operators')
                    initial_states operators' goal_states [] with
  | OutOfFuel => (Exhausted, operators')
  | Ret None => (Raises TypeError, operators')
  | Ret (Some final_states) =>
      (Returns (filter (fun state => startswith state prefix) final_states),
       operators')
  end.

(** ** The problem of lines 39-56 *)

Module SIMPLE_PROBLEM.

Definition start : list fact := ["son at home"; "car needs battery"].

Definition finish : list fact := ["son at school"].

Definition drive_son_to_school : Operator :=
  {| action := "drive son to school";
     preconds := ["son at home"; "car works"];
     add := ["son at school"];
     delete := ["son at home"] |}.

Definition shop_installs_battery : Operator :=
  {| action := "shop installs battery";
     preconds := ["car needs battery"];
     add := ["car works"];
     delete := ["car needs battery"] |}.

Definition ops : list Operator :=
  [drive_son_to_school; shop_installs_battery].

End SIMPLE_PROBLEM.

(** ** Further problems *)

Module Examples.

(** Two operators whose preconditions form a cycle: [a] needs [b] and [b]
    needs [a]. *)
Definition cycle_ops : list Operator :=
  [ {| action := "make a"; preconds := ["b"]; add := ["a"]; delete := [] |};
    {| action := "make b"; preconds := ["a"]; add := ["b"]; delete := [] |} ].

(** Three operators whose preconditions form a cycle of three facts, each
    through its second precondition: [a] needs [b], [b] needs [c] and [c]
    needs [a]. *)
Definition long_cycle_ops : list Operator :=
  [ {| action := "make a"; preconds := ["s"; "b"]; add := ["a"];
       delete := [] |};
    {| action := "make b"; preconds := ["s"; "c"]; add := ["b"];
       delete := [] |};
    {| action := "make c"; preconds := ["s"; "a"]; add := ["c"];
       delete := [] |} ].

(** Achieving [g2] deletes [g1]. *)
Definition clobber_ops : list Operator :=
  [ {| action := "make g1"; preconds := []; add := ["g1"]; delete := [] |};
    {| action := "make g2"; preconds := []; add := ["g2"];
       delete := ["g1"] |} ].

(** Both operators add [g]; the precondition of the first cannot be
    achieved. *)
Definition order_ops : list Operator :=
  [ {| action := "first"; preconds := ["p"]; add := ["g"]; delete := [] |};
    {| action := "second"; preconds := []; add := ["g"]; delete := [] |} ].

(** One operator without preconditions that adds [g]. *)
Definition free_op : Operator :=
  {| action := "make g"; preconds := []; add := ["g"]; delete := [] |}.

(** An operator that deletes a fact that starts with the prefix. *)
Definition eraser_op : Operator :=
  {| action := "make g"; preconds := []; add := ["g"];
     delete := ["Executing x"] |}.

End Examples.

(** ** Auxiliary definitions for the statements *)

(** How many entries of [universe] are not on the goal stack. *)
Definition remaining (universe goal_stack : list fact) : nat :=
  List.length (filter (fun f => negb (mem f goal_stack)) universe).

(** The label of [state] after its first [length prefix] characters. *)
Definition strip_prefix (state : fact) : string :=
  String.substring (String.length prefix)
                   (String.length state - String.length prefix) state.

(** The plan as the specification words it: the bookkeeping facts of the
    final states, in order, with the prefix stripped. *)
Definition spec_plan (final_states : list fact) : list string :=
  map strip_prefix (filter (fun state => startswith state prefix) final_states).

(** The operators the specification calls candidates for [goal]: those with
    [goal] in their add list, in the order of the collection. *)
Definition candidates (goal : fact) (operators : list Operator)
  : list Operator :=
  filter (fun op => mem goal (add op)) operators.

(** The specification's rule for [achieve]: the result of the first
    candidate, in order, whose application succeeds; failure if there is
    none. *)
Fixpoint first_success (attempt : Operator -> result)
         (cands : list Operator) : result :=
  match cands with
  | [] => Ret None
  | op :: rest =>
      match attempt op with
      | OutOfFuel => OutOfFuel
      | Ret (Some result) => Ret (Some result)
      | Ret None => first_success attempt rest
      end
  end.

(** The bookkeeping fact of an operator. *)
Definition executing (operator : Operator) : fact :=
  String.append prefix (action operator).

(** ** Running operators

    The reading of an operator that the head of the source file gives
    (lines 8-11): its preconditions must hold before it is applied, its
    add list holds afterwards and its delete list no longer does.  The
    effects are computed as line 172 computes them. *)

Definition applicable (states : list fact) (operator : Operator) : bool :=
  forallb (fun precond => mem precond states) (preconds operator).

Definition effects (states : list fact) (operator : Operator) : list fact :=
  filter (fun state => negb (mem state (delete operator))) states
  ++ add operator.

(** Apply the operators of [applied] one after the other, each with its
    preconditions holding; [None] when one of them is not applicable. *)
Fixpoint run_operators (states : list fact) (applied : list Operator)
  : option (list fact) :=
  match applied with
  | [] => Some states
  | operator :: rest =>
      if applicable states operator
      then run_operators (effects states operator) rest
      else None
  end.

(** An operator none of whose add and delete facts starts with the
    prefix. *)
Definition prefix_free (operator : Operator) : Prop :=
  (forall x, In x (add operator) -> startswith x prefix = false)
  /\ (forall x, In x (delete operator) -> startswith x prefix = false).

(** ** The command line (lines 183-213) *)

Definition USAGE : string := "gps.py [--log=level] problem.json".

(** How a run of [main] ends: it returns, [sys.exit(code)] ends it, an
    exception of [gps] passes through it, setting up logging raised (line
    201), reading the problem raised (an exception of [open], of
    [json.loads] or of one of the three subscripts), or the search ran out
    of fuel. *)
Inductive ending :=
| Finished
| SystemExit (code : nat)
| Uncaught (e : exn)
| LoggingFailed
| LoadFailed
| Unfinished.

(** What a run leaves: the lines written to standard output, in order, the
    level name taken from a [--log=] option, and how the run ended. *)
Record run := mkRun {
  stdout : list string;
  log_level : option string;
  ended : ending
}.

(** [check_usage] (lines 186-191): [None] when it returns, the line it
    prints and the exit code when it exits. *)
Definition check_usage (args : list string) : option (string * nat) :=
  if Nat.ltb (List.length args) 1 then Some (USAGE, 1) else None.

Section CommandLine.

(** Lines 207-211: the file at a path, read and decoded, as the start
    states, the goal states and the operators; [None] when that raises.
    The file system and the decoder are outside the program. *)
Variable load_problem :
  string -> option (list fact * list fact * list Operator).

(** Lines 207-213, for the arguments left after the option. *)
Definition solve_file (args : list string) (level : option string) : run :=
  match load_problem (hd EmptyString args) with
  | None => mkRun [] level LoadFailed
  | Some (start, finish, ops) =>
      match fst (gps start finish ops) with
      | Returns plan => mkRun plan level Finished
      | Raises e => mkRun [] level (Uncaught e)
      | Exhausted => mkRun [] level Unfinished
      end
  end.

(** Line 201: whether
    [logging.basicConfig(level=getattr(logging, level.upper(), None))]
    raises for the level name [level] of line 200.  The logging library is
    outside the program; the call raises when the upper-cased name is an
    attribute of the module that is no level, as for [basic_format]. *)
Variable logging_setup_raises : string -> bool.

(** [main] (lines 194-213). *)
Definition main (args : list string) : run :=
  match check_usage args with
  | Some (line, code) => mkRun [line] None (SystemExit code)
  | None =>
      let arg0 := hd EmptyString args in
      if startswith arg0 "--log="
      then
        let level := String.substring (String.length "--log=")
                                      (String.length arg0
                                       - String.length "--log=")
                                      arg0 in
        if logging_setup_raises level
        then mkRun [] (Some level) LoggingFailed
        else
          match check_usage (tl args) with
          | Some (line, code) => mkRun [line] (Some level) (SystemExit code)
          | None => solve_file (tl args) (Some level)
          end
      else
        match check_usage args with
        | Some (line, code) => mkRun [line] None (SystemExit code)
        | None => solve_file args None
        end
  end.

End CommandLine.

(** * Properties *)

(** ** Membership and emptiness *)

Lemma mem_In (x : fact) (l : list fact) : mem x l = true <-> In x l.
Proof.
  unfold mem. rewrite existsb_exists. split.
  - intros [y [Hy Heq]]. apply String.eqb_eq in Heq. now subst.
  - intros H. exists x. split; [assumption | apply String.eqb_refl].
Qed.

Lemma mem_not_In (x : fact) (l : list fact) : mem x l = false <-> ~ In x l.
Proof.
  rewrite <- mem_In. destruct (mem x l); split; congruence.
Qed.

Lemma mem_cons (x y : fact) (l : list fact) :
  mem x (y :: l) = (String.eqb x y || mem x l)%bool.
Proof. reflexivity. Qed.

Lemma is_empty_true (l : list fact) : is_empty l = true <-> l = [].
Proof. destruct l; simpl; split; congruence. Qed.

Lemma is_empty_false (l : list fact) : is_empty l = false <-> l <> [].
Proof. destruct l; simpl; split; congruence. Qed.

(** ** The recursion is bounded by the facts left to push *)

Lemma remaining_push_le (universe : list fact) (g : fact) (st : list fact) :
  remaining universe (g :: st) <= remaining universe st.
Proof.
  unfold remaining. induction universe as [|f u IH]; [simpl; lia|].
  cbn [filter]. rewrite mem_cons.
  destruct (String.eqb f g); destruct (mem f st); cbn [orb negb List.length];
    lia.
Qed.

Lemma remaining_push (universe : list fact) (g : fact) (st : list fact) :
  In g universe -> mem g st = false ->
  remaining universe (g :: st) < remaining universe st.
Proof.
  intros Hin Hst. induction universe as [|f u IH]; [contradiction|].
  destruct Hin as [-> | Hin].
  - pose proof (remaining_push_le u g st) as Hle.
    unfold remaining in *. cbn [filter]. rewrite mem_cons, String.eqb_refl, Hst.
    cbn [orb negb List.length]. lia.
  - specialize (IH Hin). unfold remaining in *. cbn [filter].
    rewrite mem_cons.
    destruct (String.eqb f g); destruct (mem f st); cbn [orb negb List.length];
      lia.
Qed.

Lemma remaining_nil (universe : list fact) :
  remaining universe [] = List.length universe.
Proof.
  unfold remaining. induction universe as [|f u IH]; [reflexivity|].
  simpl in IH |- *. now rewrite IH.
Qed.

Section OneLevelTotal.

Variable achieve_rec : list fact -> fact -> list fact -> result.

Lemma achieve_each_total (goals : list fact) (st : list fact) :
  (forall s g, In g goals -> achieve_rec s g st <> OutOfFuel) ->
  forall states, achieve_each achieve_rec states goals st <> OutOfFuel.
Proof.
  induction goals as [|g goals IH]; intros Hrec states; simpl; [discriminate|].
  destruct (achieve_rec states g st) as [|[s'|]] eqn:E.
  - exfalso. apply (Hrec states g); [now left | assumption].
  - destruct (is_empty s'); [discriminate|].
    apply IH. intros s g' Hg'. apply Hrec. now right.
  - discriminate.
Qed.

Lemma achieve_all_body_total (goals : list fact) (st : list fact) :
  (forall s g, In g goals -> achieve_rec s g st <> OutOfFuel) ->
  forall states, achieve_all_body achieve_rec states goals st <> OutOfFuel.
Proof.
  intros Hrec states. unfold achieve_all_body.
  pose proof (achieve_each_total goals st Hrec states) as H.
  destruct (achieve_each achieve_rec states goals st) as [|[s'|]];
    [congruence | | discriminate].
  destruct (forallb _ goals); discriminate.
Qed.

Lemma apply_operator_body_total (op : Operator) (goal : fact)
      (st : list fact) :
  (forall s g, In g (preconds op) ->
               achieve_rec s g (goal :: st) <> OutOfFuel) ->
  forall states, apply_operator_body achieve_rec op states goal st <> OutOfFuel.
Proof.
  intros Hrec states. unfold apply_operator_body.
  pose proof (achieve_all_body_total (preconds op) (goal :: st) Hrec states)
    as H.
  destruct (achieve_all_body achieve_rec states (preconds op) (goal :: st))
    as [|[s'|]]; [congruence | | discriminate].
  destruct (is_empty s'); discriminate.
Qed.

Lemma try_operators_total (cands : list Operator) (goal : fact)
      (st : list fact) :
  (forall op s g, In op cands -> In g (preconds op) ->
                  achieve_rec s g (goal :: st) <> OutOfFuel) ->
  forall states, try_operators achieve_rec cands states goal st <> OutOfFuel.
Proof.
  induction cands as [|op cands IH]; intros Hrec states; simpl;
    [discriminate|].
  assert (Hrest : try_operators achieve_rec cands states goal st
                  <> OutOfFuel).
  { apply IH. intros op' s g Hop'. apply Hrec. now right. }
  destruct (negb (mem goal (add op))); [assumption|].
  pose proof (apply_operator_body_total op goal st
                (fun s g => Hrec op s g (or_introl eq_refl)) states) as H.
  destruct (apply_operator_body achieve_rec op states goal st) as [|[s'|]];
    [congruence | | assumption].
  destruct (is_empty s'); [assumption | discriminate].
Qed.

End OneLevelTotal.

(** With as much fuel as there are pushable facts off the goal stack,
    [achieve] returns. *)
Lemma achieve_never_out_of_fuel (universe : list fact) (ops : list Operator) :
  (forall op, In op ops -> incl (preconds op) universe) ->
  forall fuel states goal st,
    In goal universe -> remaining universe st <= fuel ->
    achieve fuel states ops goal st <> OutOfFuel.
Proof.
  intros Hops. induction fuel as [|fuel IH]; intros states goal st Hgoal Hfuel;
    simpl.
  - destruct (mem goal states); [discriminate|].
    destruct (mem goal st) eqn:Hst; [discriminate|].
    pose proof (remaining_push universe goal st Hgoal Hst). lia.
  - destruct (mem goal states); [discriminate|].
    destruct (mem goal st) eqn:Hst; [discriminate|].
    apply try_operators_total. intros op s g Hop Hg.
    apply IH; [now apply (Hops op Hop)|].
    pose proof (remaining_push universe goal st Hgoal Hst). lia.
Qed.

Lemma achieve_all_never_out_of_fuel (universe : list fact)
      (ops : list Operator) :
  (forall op, In op ops -> incl (preconds op) universe) ->
  forall fuel states goals st,
    incl goals universe -> remaining universe st <= fuel ->
    achieve_all fuel states ops goals st <> OutOfFuel.
Proof.
  intros Hops fuel states goals st Hgoals Hfuel. unfold achieve_all.
  apply achieve_all_body_total. intros s g Hg.
  apply (achieve_never_out_of_fuel universe ops Hops); auto.
Qed.

Lemma preconds_pushable (goals : list fact) (ops : list Operator) :
  forall op, In op ops -> incl (preconds op) (pushable goals ops).
Proof.
  intros op Hop g Hg. unfold pushable. apply in_or_app. right.
  apply in_flat_map. now exists op.
Qed.

Lemma achieve_all_depth_bound (states goals : list fact)
      (ops : list Operator) :
  achieve_all (depth_bound goals ops) states ops goals [] <> OutOfFuel.
Proof.
  apply (achieve_all_never_out_of_fuel (pushable goals ops) ops).
  - apply preconds_pushable.
  - intros g Hg. unfold pushable. apply in_or_app. now left.
  - rewrite remaining_nil. unfold depth_bound. lia.
Qed.

(** [gps] always returns a plan or raises. *)
Lemma gps_cases (initial goals : list fact) (ops : list Operator) :
  (exists final,
      achieve_all (depth_bound goals (seed ops)) initial (seed ops) goals []
      = Ret (Some final)
      /\ gps initial goals ops
         = (Returns (filter (fun state => startswith state prefix) final),
            seed ops))
  \/ (achieve_all (depth_bound goals (seed ops)) initial (seed ops) goals []
      = Ret None
      /\ gps initial goals ops = (Raises TypeError, seed ops)).
Proof.
  unfold gps.
  pose proof (achieve_all_depth_bound initial goals (seed ops)) as H.
  destruct (achieve_all _ initial (seed ops) goals []) as [|[final|]].
  - congruence.
  - left. now exists final.
  - now right.
Qed.

(** ** More fuel never changes a result *)

Section OneLevelMono.

Variables f f' : list fact -> fact -> list fact -> result.
Hypothesis f_le_f' : forall s g st r, f s g st = Ret r -> f' s g st = Ret r.

Lemma achieve_each_mono (goals : list fact) :
  forall states st r,
    achieve_each f states goals st = Ret r ->
    achieve_each f' states goals st = Ret r.
Proof.
  induction goals as [|g goals IH]; intros states st r; simpl; [trivial|].
  destruct (f states g st) as [|r0] eqn:E; [discriminate|].
  rewrite (f_le_f' _ _ _ _ E).
  destruct r0 as [s'|]; [|trivial].
  destruct (is_empty s'); [trivial | apply IH].
Qed.

Lemma achieve_all_body_mono (states goals st : list fact) r :
  achieve_all_body f states goals st = Ret r ->
  achieve_all_body f' states goals st = Ret r.
Proof.
  unfold achieve_all_body.
  destruct (achieve_each f states goals st) as [|r0] eqn:E; [discriminate|].
  now rewrite (achieve_each_mono _ _ _ _ E).
Qed.

Lemma apply_operator_body_mono op (states : list fact) goal st r :
  apply_operator_body f op states goal st = Ret r ->
  apply_operator_body f' op states goal st = Ret r.
Proof.
  unfold apply_operator_body.
  destruct (achieve_all_body f states (preconds op) (goal :: st))
    as [|r0] eqn:E; [discriminate|].
  now rewrite (achieve_all_body_mono _ _ _ _ E).
Qed.

Lemma try_operators_mono (cands : list Operator) :
  forall states goal st r,
    try_operators f cands states goal st = Ret r ->
    try_operators f' cands states goal st = Ret r.
Proof.
  induction cands as [|op cands IH]; intros states goal st r; simpl;
    [trivial|].
  destruct (negb (mem goal (add op))); [apply IH|].
  destruct (apply_operator_body f op states goal st) as [|r0] eqn:E;
    [discriminate|].
  rewrite (apply_operator_body_mono _ _ _ _ _ E).
  destruct r0 as [s'|]; [|apply IH].
  destruct (is_empty s'); [apply IH | trivial].
Qed.

End OneLevelMono.

Lemma achieve_fuel_mono (n : nat) :
  forall m, n <= m ->
  forall states ops goal st r,
    achieve n states ops goal st = Ret r ->
    achieve m states ops goal st = Ret r.
Proof.
  induction n as [|n IH]; intros m Hle states ops goal st r.
  - destruct m; simpl; [trivial|].
    destruct (mem goal states); [trivial|].
    destruct (mem goal st); [trivial | discriminate].
  - destruct m as [|m]; [lia|]. simpl.
    destruct (mem goal states); [trivial|].
    destruct (mem goal st); [trivial|].
    apply try_operators_mono. intros s g st' r'. apply IH. lia.
Qed.

Lemma achieve_all_fuel_mono (n m : nat) :
  n <= m ->
  forall states ops goals st r,
    achieve_all n states ops goals st = Ret r ->
    achieve_all m states ops goals st = Ret r.
Proof.
  intros Hle states ops goals st r. unfold achieve_all.
  apply achieve_all_body_mono. intros s g st' r'.
  now apply achieve_fuel_mono.
Qed.

(** Two runs that both return agree, whatever their fuel. *)
Lemma achieve_all_fuel_irrelevant (n m : nat) states ops goals st r r' :
  achieve_all n states ops goals st = Ret r ->
  achieve_all m states ops goals st = Ret r' ->
  r = r'.
Proof.
  intros Hn Hm.
  apply (achieve_all_fuel_mono n (Nat.max n m)) in Hn; [|lia].
  apply (achieve_all_fuel_mono m (Nat.max n m)) in Hm; [|lia].
  congruence.
Qed.

(** ** Strings that start with the prefix *)

Lemma prefix_app (p s : string) :
  String.prefix p s = true -> exists rest, s = String.append p rest.
Proof.
  revert s. induction p as [|c p IH]; intros s H.
  - now exists s.
  - destruct s as [|d s]; simpl in H; [discriminate|].
    destruct (Ascii.ascii_dec c d) as [->|]; [|discriminate].
    destruct (IH s H) as [rest ->]. now exists rest.
Qed.

Lemma app_prefix (p rest : string) :
  String.prefix p (String.append p rest) = true.
Proof.
  induction p as [|c p IH]; simpl.
  - now destruct rest.
  - destruct (Ascii.ascii_dec c c); [assumption | congruence].
Qed.

(** ** The entry point [gps] *)


Lemma gps_never_exhausted (initial goals : list fact) (ops : list Operator) :
  fst (gps initial goals ops) <> Exhausted.
Proof.
  destruct (gps_cases initial goals ops) as [[final [_ ->]] | [_ ->]];
    discriminate.
Qed.



(** C1 (the code departs from it): when the search fails, that is when
    [achieve_all] returns [None] for the goal states, [gps] does not return
    a failure value: the comprehension of line 87 iterates over [None] and
    the call ends in an uncaught [TypeError]. *)
Theorem gps_failure_raises_TypeError (initial goals : list fact)
        (ops : list Operator) :
  achieve_all (depth_bound goals (seed ops)) initial (seed ops) goals []
  = Ret None ->
  fst (gps initial goals ops) = Raises TypeError.
Proof.
  intros Hfail.
  destruct (gps_cases initial goals ops) as [[final [Hok _]] | [_ ->]];
    [congruence | reflexivity].
Qed.

Lemma gps_failure_raises_TypeError_witness :
  achieve_all (depth_bound ["x"] (seed [])) [] (seed []) ["x"] [] = Ret None
  /\ fst (gps [] ["x"] []) = Raises TypeError.
Proof.
  split.
  - reflexivity.
  - apply gps_failure_raises_TypeError. reflexivity.
Defined.

(** C2, as the code has it: the plan of a successful solve is the final
    states filtered to those that start with ["Executing "], in their order
    there; every entry of the plan keeps that prefix. *)
Theorem gps_plan_is_filtered_final_states (initial goals : list fact)
        (ops : list Operator) (plan : list string) :
  fst (gps initial goals ops) = Returns plan ->
  exists final,
    achieve_all (depth_bound goals (seed ops)) initial (seed ops) goals []
    = Ret (Some final)
    /\ plan = filter (fun state => startswith state prefix) final
    /\ Forall (fun entry => exists name, entry = String.append prefix name)
              plan.
Proof.
  intros Hplan.
  destruct (gps_cases initial goals ops) as [[final [Hok Hgps]] | [_ Hgps]];
    rewrite Hgps in Hplan; simpl in Hplan; [|discriminate].
  injection Hplan as <-. exists final. repeat split; [assumption|].
  apply Forall_forall. intros entry Hentry.
  apply filter_In in Hentry. destruct Hentry as [_ Hstarts].
  now apply prefix_app.
Qed.

Lemma gps_plan_is_filtered_final_states_witness :
  exists final,
    achieve_all (depth_bound ["g"] (seed [Examples.free_op])) ["s"]
                (seed [Examples.free_op]) ["g"] []
    = Ret (Some final)
    /\ ["Executing make g"] = filter (fun state => startswith state prefix) final
    /\ Forall (fun entry => exists name, entry = String.append prefix name)
              ["Executing make g"].
Proof.
  apply (gps_plan_is_filtered_final_states ["s"] ["g"] [Examples.free_op]).
  reflexivity.
Defined.

(** C2 as stated fails: on the problem of lines 39-56 the returned plan is
    not the prefix-stripped list of action names. *)
Lemma gps_plan_not_stripped :
  achieve_all (depth_bound SIMPLE_PROBLEM.finish (seed SIMPLE_PROBLEM.ops))
              SIMPLE_PROBLEM.start (seed SIMPLE_PROBLEM.ops)
              SIMPLE_PROBLEM.finish []
  = Ret (Some ["car works"; "Executing shop installs battery";
               "son at school"; "Executing drive son to school"])
  /\ spec_plan ["car works"; "Executing shop installs battery";
                "son at school"; "Executing drive son to school"]
     = ["shop installs battery"; "drive son to school"]
  /\ fst (gps SIMPLE_PROBLEM.start SIMPLE_PROBLEM.finish SIMPLE_PROBLEM.ops)
     <> Returns (spec_plan ["car works"; "Executing shop installs battery";
                            "son at school"; "Executing drive son to school"]).
Proof.
  repeat split; try reflexivity.
  vm_compute. discriminate.
Qed.

(** C3, as the code has it: for the problem of lines 39-56, [gps] returns
    the two bookkeeping facts, prefix included, the battery first. *)
Theorem gps_simple_problem :
  fst (gps SIMPLE_PROBLEM.start SIMPLE_PROBLEM.finish SIMPLE_PROBLEM.ops)
  = Returns ["Executing shop installs battery";
             "Executing drive son to school"].
Proof. reflexivity. Qed.

(** C3 as stated fails: the plan is not the list of bare action names. *)
Lemma gps_simple_problem_not_bare_names :
  fst (gps SIMPLE_PROBLEM.start SIMPLE_PROBLEM.finish SIMPLE_PROBLEM.ops)
  <> Returns ["shop installs battery"; "drive son to school"].
Proof. vm_compute. discriminate. Qed.



(** ** Cycle detection and termination *)

Lemma achieve_holds (fuel : nat) (states : list fact) (ops : list Operator)
      (goal : fact) (st : list fact) :
  In goal states -> achieve fuel states ops goal st = Ret (Some states).
Proof.
  intros H. apply mem_In in H. destruct fuel; simpl; now rewrite H.
Qed.

Lemma achieve_on_stack (fuel : nat) (states : list fact) (ops : list Operator)
      (goal : fact) (st : list fact) :
  ~ In goal states -> In goal st -> achieve fuel states ops goal st = Ret None.
Proof.
  intros Hs Hst. apply mem_not_In in Hs. apply mem_In in Hst.
  destruct fuel; simpl; now rewrite Hs, Hst.
Qed.

Lemma achieve_scan (fuel : nat) (states : list fact) (ops : list Operator)
      (goal : fact) (st : list fact) :
  ~ In goal states -> ~ In goal st ->
  achieve (S fuel) states ops goal st
  = try_operators (fun s g st' => achieve fuel s ops g st')
                  ops states goal st.
Proof.
  intros Hs Hst. apply mem_not_In in Hs. apply mem_not_In in Hst.
  cbn [achieve]. now rewrite Hs, Hst.
Qed.

Lemma try_operators_all_fail achieve_rec (cands : list Operator)
      (states : list fact) (goal : fact) (st : list fact) :
  (forall op, In op cands -> In goal (add op) ->
              apply_operator_body achieve_rec op states goal st = Ret None) ->
  try_operators achieve_rec cands states goal st = Ret None.
Proof.
  induction cands as [|op cands IH]; intros Hfail; simpl; [reflexivity|].
  assert (Hrest : try_operators achieve_rec cands states goal st = Ret None).
  { apply IH. intros op' Hop'. apply Hfail. now right. }
  destruct (mem goal (add op)) eqn:Hadd; simpl; [|assumption].
  rewrite (Hfail op); [assumption | now left | now apply mem_In].
Qed.

Lemma apply_operator_body_first_precond achieve_rec (op : Operator)
      (states : list fact) (goal : fact) (st : list fact) (p : fact)
      (rest : list fact) :
  preconds op = p :: rest ->
  achieve_rec states p (goal :: st) = Ret None ->
  apply_operator_body achieve_rec op states goal st = Ret None.
Proof.
  intros Hpre Hp. unfold apply_operator_body, achieve_all_body.
  rewrite Hpre. simpl. now rewrite Hp.
Qed.

(** Two facts that hold nowhere yet, each added only by operators that first
    require the other: the search for one of them fails. *)
Lemma achieve_two_cycle_fails (ops : list Operator) (a b : fact)
      (states st : list fact) (fuel : nat) :
  a <> b ->
  ~ In a states -> ~ In b states -> ~ In a st -> ~ In b st ->
  (forall op, In op ops -> In a (add op) ->
              exists rest, preconds op = b :: rest) ->
  (forall op, In op ops -> In b (add op) ->
              exists rest, preconds op = a :: rest) ->
  achieve (S (S fuel)) states ops a st = Ret None.
Proof.
  intros Hab Has Hbs Hast Hbst Ha Hb.
  assert (Hb_fails : achieve (S fuel) states ops b (a :: st) = Ret None).
  { rewrite achieve_scan; [|assumption|].
    2:{ simpl. intros [E | E]; [now apply Hab | now apply Hbst]. }
    apply try_operators_all_fail. intros op Hop Hadd.
    destruct (Hb op Hop Hadd) as [rest Hpre].
    apply (apply_operator_body_first_precond _ _ _ _ _ _ _ Hpre).
    apply achieve_on_stack; [assumption | simpl; auto]. }
  rewrite achieve_scan; [|assumption|assumption].
  apply try_operators_all_fail. intros op Hop Hadd.
  destruct (Ha op Hop Hadd) as [rest Hpre].
  exact (apply_operator_body_first_precond _ _ _ _ _ _ _ Hpre Hb_fails).
Qed.

(** C5 as stated fails: a target on the goal stack that already holds is
    achieved, not failed. *)
Lemma achieve_on_stack_but_holding :
  In "a" ["a"] /\ achieve 0 ["a"] [] "a" ["a"] = Ret (Some ["a"]).
Proof. split; [simpl; auto | reflexivity]. Qed.

(** ** The second pass of [achieve_all] *)

Lemma forallb_mem (goals states : list fact) :
  forallb (fun goal => mem goal states) goals = true
  <-> (forall g, In g goals -> In g states).
Proof.
  rewrite forallb_forall. split; intros H g Hg.
  - apply mem_In. now apply H.
  - apply mem_In. now apply H.
Qed.

(** C6: [achieve_all] returns a list of states only if the loop over the
    goals returned that list and every goal is a member of it; and when the
    loop succeeded for every goal but some goal is absent from the states it
    ended with, [achieve_all] fails. *)
Theorem achieve_all_rechecks_goals (fuel : nat) (states : list fact)
        (ops : list Operator) (goals goal_stack : list fact) :
  (forall final,
      achieve_all fuel states ops goals goal_stack = Ret (Some final) ->
      achieve_all_loop fuel states ops goals goal_stack = Ret (Some final)
      /\ forall g, In g goals -> In g final)
  /\ (forall s,
         achieve_all_loop fuel states ops goals goal_stack = Ret (Some s) ->
         (exists g, In g goals /\ ~ In g s) ->
         achieve_all fuel states ops goals goal_stack = Ret None).
Proof.
  unfold achieve_all, achieve_all_loop, achieve_all_body.
  destruct (achieve_each _ states goals goal_stack) as [|[s'|]];
    split; try discriminate.
  - intros final H.
    destruct (forallb (fun goal => mem goal s') goals) eqn:E; [|discriminate].
    injection H as <-. split; [reflexivity|]. now apply forallb_mem.
  - intros s H [g [Hg Hns]]. injection H as <-.
    destruct (forallb (fun goal => mem goal s') goals) eqn:E; [|reflexivity].
    exfalso. apply Hns. rewrite forallb_mem in E. now apply E.
Qed.

Lemma achieve_all_rechecks_goals_witness :
  (achieve_all_loop 1 ["s"] Examples.clobber_ops ["g1"] []
   = Ret (Some ["s"; "g1"])
   /\ forall g, In g ["g1"] -> In g ["s"; "g1"])
  /\ achieve_all 1 ["s"] Examples.clobber_ops ["g1"; "g2"] [] = Ret None.
Proof.
  split.
  - apply (proj1 (achieve_all_rechecks_goals 1 ["s"] Examples.clobber_ops
                    ["g1"] [])).
    reflexivity.
  - apply (proj2 (achieve_all_rechecks_goals 1 ["s"] Examples.clobber_ops
                    ["g1"; "g2"] []) ["s"; "g2"]).
    + reflexivity.
    + exists "g1". split; [simpl; auto|].
      simpl. intros [E | [E | []]]; discriminate.
Defined.

(** Each goal of the clobbering problem can be achieved on its own. *)
Lemma clobber_goals_achievable_alone :
  achieve_all 1 ["s"] Examples.clobber_ops ["g1"] [] = Ret (Some ["s"; "g1"])
  /\ achieve_all 1 ["s"] Examples.clobber_ops ["g2"] []
     = Ret (Some ["s"; "g2"]).
Proof. split; reflexivity. Qed.

(** ** The scan of [achieve] *)

Lemma apply_operator_body_nonempty achieve_rec op states goal st r :
  In goal (add op) ->
  apply_operator_body achieve_rec op states goal st = Ret (Some r) ->
  is_empty r = false.
Proof.
  unfold apply_operator_body. intros Hadd.
  destruct (achieve_all_body achieve_rec states (preconds op) (goal :: st))
    as [|[s'|]]; try discriminate.
  destruct (is_empty s'); [discriminate|].
  intros H. injection H as <-. apply is_empty_false.
  intros E. apply app_eq_nil in E. destruct E as [_ E].
  rewrite E in Hadd. contradiction.
Qed.

Lemma try_operators_first_success achieve_rec (cands : list Operator)
      states goal st :
  try_operators achieve_rec cands states goal st
  = first_success (fun op => apply_operator_body achieve_rec op states goal st)
                  (candidates goal cands).
Proof.
  induction cands as [|op cands IH]; simpl; [reflexivity|].
  destruct (mem goal (add op)) eqn:Hadd; simpl; [|assumption].
  destruct (apply_operator_body achieve_rec op states goal st)
    as [|[r|]] eqn:E; [reflexivity | | assumption].
  apply mem_In in Hadd.
  now rewrite (apply_operator_body_nonempty _ _ _ _ _ _ Hadd E).
Qed.

(** C7: when the target neither holds nor is on the goal stack, [achieve]
    returns what the specification's rule gives: the result of the first
    operator, in the order of the collection and among those with the target
    in their add list, whose application succeeds, and failure if there is
    none.  So when the first candidate fails the result is that of the scan
    of the candidates after it. *)
Theorem achieve_first_candidate_that_works (fuel : nat) (states : list fact)
        (ops : list Operator) (goal : fact) (goal_stack : list fact) :
  ~ In goal states -> ~ In goal goal_stack ->
  achieve (S fuel) states ops goal goal_stack
  = first_success (fun op => apply_operator fuel op states ops goal goal_stack)
                  (candidates goal ops)
  /\ (forall op rest,
         candidates goal ops = op :: rest ->
         apply_operator fuel op states ops goal goal_stack = Ret None ->
         achieve (S fuel) states ops goal goal_stack
         = first_success
             (fun op' => apply_operator fuel op' states ops goal goal_stack)
             rest).
Proof.
  intros Hs Hst. apply mem_not_In in Hs. apply mem_not_In in Hst.
  assert (Hscan : achieve (S fuel) states ops goal goal_stack
                  = first_success
                      (fun op => apply_operator fuel op states ops goal
                                                goal_stack)
                      (candidates goal ops)).
  { simpl. rewrite Hs, Hst. apply try_operators_first_success. }
  split; [exact Hscan|].
  intros op rest Hcands Hfail. rewrite Hscan, Hcands. simpl.
  now rewrite Hfail.
Qed.

Lemma achieve_first_candidate_that_works_witness :
  candidates "g" Examples.order_ops = Examples.order_ops
  /\ apply_operator 1 (nth 0 Examples.order_ops Examples.free_op) ["s"]
                    Examples.order_ops "g" []
     = Ret None
  /\ apply_operator 1 (nth 1 Examples.order_ops Examples.free_op) ["s"]
                    Examples.order_ops "g" []
     = Ret (Some ["s"; "g"])
  /\ achieve 2 ["s"] Examples.order_ops "g" [] = Ret (Some ["s"; "g"]).
Proof.
  split; [reflexivity|]. split; [reflexivity|]. split; [reflexivity|].
  rewrite (proj1 (achieve_first_candidate_that_works
                    1 ["s"] Examples.order_ops "g" []
                    ltac:(simpl; intros [E | []]; discriminate)
                    ltac:(simpl; tauto))).
  reflexivity.
Defined.

(** ** The effects of an operator *)

Lemma count_occ_filter_not_deleted (deleted l : list fact) (x : fact) :
  count_occ string_dec (filter (fun s => negb (mem s deleted)) l) x
  = if mem x deleted then 0 else count_occ string_dec l x.
Proof.
  induction l as [|y l IH]; simpl.
  - now destruct (mem x deleted).
  - destruct (string_dec y x) as [->|Hne].
    + destruct (mem x deleted) eqn:E; simpl.
      * exact IH.
      * destruct (string_dec x x); [now rewrite IH | congruence].
    + destruct (mem y deleted); simpl; [exact IH|].
      destruct (string_dec y x); [congruence | exact IH].
Qed.

(** Where the states that [achieve_all] returns for the preconditions of an
    operator are not empty, [apply_operator] returns that list without the
    facts of the delete list, followed by the add list as it is; every fact
    occurs in the result as often as it does in the two parts, so nothing is
    deduplicated. *)
Theorem apply_operator_deletes_then_adds (fuel : nat) (operator : Operator)
        (states : list fact) (ops : list Operator) (goal : fact)
        (goal_stack result : list fact) :
  achieve_all fuel states ops (preconds operator) (goal :: goal_stack)
  = Ret (Some result) ->
  result <> [] ->
  apply_operator fuel operator states ops goal goal_stack
  = Ret (Some (filter (fun state => negb (mem state (delete operator))) result
               ++ add operator))
  /\ (forall out,
         apply_operator fuel operator states ops goal goal_stack
         = Ret (Some out) ->
         forall x,
           count_occ string_dec out x
           = (if mem x (delete operator) then 0
              else count_occ string_dec result x)
             + count_occ string_dec (add operator) x).
Proof.
  intros Hpre Hne.
  assert (Happly : apply_operator fuel operator states ops goal goal_stack
                   = Ret (Some (filter (fun state =>
                                          negb (mem state (delete operator)))
                                       result
                                ++ add operator))).
  { unfold apply_operator, apply_operator_body.
    unfold achieve_all in Hpre. rewrite Hpre.
    apply is_empty_false in Hne. now rewrite Hne. }
  split; [exact Happly|].
  intros out Hout x. rewrite Happly in Hout. injection Hout as <-.
  now rewrite count_occ_app, count_occ_filter_not_deleted.
Qed.

Lemma apply_operator_deletes_then_adds_witness :
  apply_operator 0 (seed_operator Examples.eraser_op)
                 ["Executing x"; "g"; "Executing make g"] [] "g" []
  = Ret (Some ["g"; "Executing make g"; "g"; "Executing make g"]).
Proof.
  apply (proj1 (apply_operator_deletes_then_adds
                  0 (seed_operator Examples.eraser_op)
                  ["Executing x"; "g"; "Executing make g"] [] "g" []
                  ["Executing x"; "g"; "Executing make g"]
                  eq_refl ltac:(discriminate))).
Defined.

(** With no states and the operator of [Examples.free_op], which has no
    preconditions, [achieve_all] returns for the preconditions the (empty)
    list of states it was given, and [apply_operator] returns [None], not
    that list with the add list appended. *)
Lemma apply_operator_empty_result_fails :
  achieve_all 0 [] [Examples.free_op] (preconds Examples.free_op) ["g"]
  = Ret (Some [])
  /\ apply_operator 0 Examples.free_op [] [Examples.free_op] "g" [] = Ret None
  /\ apply_operator 0 Examples.free_op [] [Examples.free_op] "g" []
     <> Ret (Some (filter (fun state =>
                             negb (mem state (delete Examples.free_op))) []
                   ++ add Examples.free_op)).
Proof.
  split; [reflexivity|]. split; [reflexivity|]. vm_compute. discriminate.
Qed.

(** C8 (the code departs from it): with no states, the preconditions of an
    operator that has none are all achieved, [achieve_all] returns through
    its last line the empty list of states it was given; and yet
    [apply_operator] returns [None] where the states without the delete list
    followed by the add list are due: the test of line 165, meant for the
    [None] of a precondition that cannot be satisfied, takes the empty list
    for one. *)
Theorem apply_operator_fails_without_states (fuel : nat) (operator : Operator)
        (ops : list Operator) (goal : fact) (goal_stack : list fact) :
  preconds operator = [] ->
  achieve_all fuel [] ops (preconds operator) (goal :: goal_stack)
  = Ret (Some [])
  /\ apply_operator fuel operator [] ops goal goal_stack = Ret None
  /\ apply_operator fuel operator [] ops goal goal_stack
     <> Ret (Some (filter (fun state => negb (mem state (delete operator))) []
                   ++ add operator)).
Proof.
  intros Hpre.
  assert (Hall : achieve_all fuel [] ops (preconds operator)
                             (goal :: goal_stack)
                 = Ret (Some [])).
  { now rewrite Hpre. }
  assert (Happly : apply_operator fuel operator [] ops goal goal_stack
                   = Ret None).
  { unfold apply_operator, apply_operator_body.
    unfold achieve_all in Hall. now rewrite Hall. }
  split; [exact Hall|]. split; [exact Happly|].
  rewrite Happly. discriminate.
Qed.

Lemma apply_operator_fails_without_states_witness :
  achieve_all 0 [] [seed_operator Examples.free_op]
              (preconds (seed_operator Examples.free_op)) ["g"]
  = Ret (Some [])
  /\ apply_operator 0 (seed_operator Examples.free_op) []
                    [seed_operator Examples.free_op] "g" []
     = Ret None
  /\ apply_operator 0 (seed_operator Examples.free_op) []
                    [seed_operator Examples.free_op] "g" []
     <> Ret (Some ["g"; "Executing make g"]).
Proof.
  apply (apply_operator_fails_without_states
           0 (seed_operator Examples.free_op)
           [seed_operator Examples.free_op] "g" []).
  reflexivity.
Defined.

(** ** Empty lists of states *)

Lemma achieve_nonempty (fuel : nat) (states : list fact) (ops : list Operator)
      (goal : fact) (st : list fact) (r : list fact) :
  achieve fuel states ops goal st = Ret (Some r) -> r <> [].
Proof.
  assert (Hscan : forall f cands,
             try_operators f cands states goal st = Ret (Some r) -> r <> []).
  { intros f cands. induction cands as [|op cands IH]; simpl; [discriminate|].
    destruct (negb (mem goal (add op))); [assumption|].
    destruct (apply_operator_body f op states goal st) as [|[r'|]];
      [discriminate | | assumption].
    destruct (is_empty r') eqn:E; [assumption|].
    intros H. injection H as <-. now apply is_empty_false. }
  destruct fuel; simpl.
  - destruct (mem goal states) eqn:E.
    + intros H. injection H as <-. apply mem_In in E. now destruct states.
    + destruct (mem goal st); discriminate.
  - destruct (mem goal states) eqn:E.
    + intros H. injection H as <-. apply mem_In in E. now destruct states.
    + destruct (mem goal st); [discriminate | apply Hscan].
Qed.

(** From no states at all, [achieve] achieves nothing. *)
Lemma achieve_from_empty (fuel : nat) (ops : list Operator) :
  forall goal st r, achieve fuel [] ops goal st <> Ret (Some r).
Proof.
  induction fuel as [|fuel IH]; intros goal st r; simpl.
  - destruct (mem goal st); discriminate.
  - destruct (mem goal st); [discriminate|].
    generalize ops at 2. intros cands.
    induction cands as [|op cands IHc]; simpl; [discriminate|].
    destruct (negb (mem goal (add op))); [assumption|].
    unfold apply_operator_body, achieve_all_body.
    destruct (preconds op) as [|p ps]; simpl; [assumption|].
    destruct (achieve fuel [] ops p (goal :: st)) as [|[s'|]] eqn:E.
    + discriminate.
    + exfalso. exact (IH _ _ _ E).
    + assumption.
Qed.

Lemma achieve_all_from_empty (fuel : nat) (ops : list Operator)
      (goals st : list fact) (r : list fact) :
  goals <> [] -> achieve_all fuel [] ops goals st <> Ret (Some r).
Proof.
  intros Hne. destruct goals as [|g goals]; [congruence|].
  unfold achieve_all, achieve_all_body. simpl.
  pose proof (achieve_from_empty fuel ops g st) as H.
  destruct (achieve fuel [] ops g st) as [|[s'|]];
    [discriminate | | discriminate].
  exfalso. exact (H s' eq_refl).
Qed.

(** C9: [achieve_all] returns the empty list when there are no states and no
    goals; [apply_operator] treats an empty list returned for the
    preconditions as failure, and so does the loop of [achieve_all] with an
    empty list returned by the call it makes; hence a solve from no initial
    states with a goal to achieve fails, whatever the operators. *)
Theorem empty_states_are_failure :
  (forall fuel ops goal_stack,
      achieve_all fuel [] ops [] goal_stack = Ret (Some []))
  /\ (forall fuel operator states ops goal goal_stack,
         achieve_all fuel states ops (preconds operator) (goal :: goal_stack)
         = Ret (Some []) ->
         apply_operator fuel operator states ops goal goal_stack = Ret None)
  /\ (forall achieve_rec states goal rest goal_stack,
         achieve_rec states goal goal_stack = Ret (Some []) ->
         achieve_each achieve_rec states (goal :: rest) goal_stack = Ret None)
  /\ (forall goals ops,
         goals <> [] -> fst (gps [] goals ops) = Raises TypeError).
Proof.
  repeat split.
  - intros fuel operator states ops goal goal_stack H.
    unfold apply_operator, apply_operator_body.
    unfold achieve_all in H. now rewrite H.
  - intros achieve_rec states goal rest goal_stack H. simpl. now rewrite H.
  - intros goals ops Hne.
    destruct (gps_cases [] goals ops) as [[final [Hok _]] | [_ ->]];
      [|reflexivity].
    exfalso. exact (achieve_all_from_empty _ _ _ _ _ Hne Hok).
Qed.

Lemma empty_states_are_failure_witness :
  apply_operator 0 Examples.free_op [] [Examples.free_op] "g" [] = Ret None
  /\ achieve_each (fun _ _ _ => Ret (Some [])) ["s"] ["g"; "h"] [] = Ret None
  /\ fst (gps [] ["g"] [Examples.free_op]) = Raises TypeError.
Proof.
  destruct empty_states_are_failure as [_ [Happly [Hloop Hgps]]].
  split; [|split].
  - apply Happly. reflexivity.
  - apply Hloop. reflexivity.
  - apply Hgps. discriminate.
Defined.

(** ** Facts that no operator deletes stay *)

Section OneLevelKeeps.

Variable kept : fact.
Variable achieve_rec : list fact -> fact -> list fact -> result.
Hypothesis rec_keeps :
  forall s g st s', achieve_rec s g st = Ret (Some s') ->
                    In kept s -> In kept s'.

Lemma achieve_each_keeps (goals : list fact) :
  forall states st s',
    achieve_each achieve_rec states goals st = Ret (Some s') ->
    In kept states -> In kept s'.
Proof.
  induction goals as [|g goals IH]; intros states st s'; simpl.
  - intros H. now injection H as <-.
  - destruct (achieve_rec states g st) as [|[s1|]] eqn:E; try discriminate.
    destruct (is_empty s1); [discriminate|].
    intros H Hin. apply (IH _ _ _ H). exact (rec_keeps _ _ _ _ E Hin).
Qed.

Lemma achieve_all_body_keeps (states goals st s' : list fact) :
  achieve_all_body achieve_rec states goals st = Ret (Some s') ->
  In kept states -> In kept s'.
Proof.
  unfold achieve_all_body.
  destruct (achieve_each achieve_rec states goals st) as [|[s1|]] eqn:E;
    try discriminate.
  destruct (forallb _ goals); [|discriminate].
  intros H. injection H as <-. exact (achieve_each_keeps _ _ _ _ E).
Qed.

Lemma apply_operator_body_keeps op (states : list fact) goal st s' :
  ~ In kept (delete op) ->
  apply_operator_body achieve_rec op states goal st = Ret (Some s') ->
  In kept states -> In kept s'.
Proof.
  unfold apply_operator_body. intros Hdel.
  destruct (achieve_all_body achieve_rec states (preconds op) (goal :: st))
    as [|[s1|]] eqn:E; try discriminate.
  destruct (is_empty s1); [discriminate|].
  intros H Hin. injection H as <-. apply in_or_app. left.
  apply filter_In. split.
  - exact (achieve_all_body_keeps _ _ _ _ E Hin).
  - apply mem_not_In in Hdel. now rewrite Hdel.
Qed.

Lemma try_operators_keeps (cands : list Operator) states goal st s' :
  (forall op, In op cands -> ~ In kept (delete op)) ->
  try_operators achieve_rec cands states goal st = Ret (Some s') ->
  In kept states -> In kept s'.
Proof.
  induction cands as [|op cands IH]; simpl; [discriminate|].
  intros Hdel.
  assert (Hrest : try_operators achieve_rec cands states goal st
                  = Ret (Some s') -> In kept states -> In kept s').
  { apply IH. intros op' Hop'. apply Hdel. now right. }
  destruct (negb (mem goal (add op))); [assumption|].
  destruct (apply_operator_body achieve_rec op states goal st)
    as [|[s1|]] eqn:E; [discriminate | | assumption].
  destruct (is_empty s1); [assumption|].
  intros H. injection H as <-.
  apply (apply_operator_body_keeps op states goal st); [|assumption].
  apply Hdel. now left.
Qed.

End OneLevelKeeps.

Lemma achieve_keeps (kept : fact) (ops : list Operator) :
  (forall op, In op ops -> ~ In kept (delete op)) ->
  forall fuel states goal st s',
    achieve fuel states ops goal st = Ret (Some s') ->
    In kept states -> In kept s'.
Proof.
  intros Hdel. induction fuel as [|fuel IH]; intros states goal st s'; simpl.
  - destruct (mem goal states).
    + intros H. now injection H as <-.
    + destruct (mem goal st); discriminate.
  - destruct (mem goal states).
    + intros H. now injection H as <-.
    + destruct (mem goal st); [discriminate|].
      apply try_operators_keeps; [|assumption].
      intros s g st0 s0. apply IH.
Qed.

Lemma achieve_all_keeps (kept : fact) (ops : list Operator) :
  (forall op, In op ops -> ~ In kept (delete op)) ->
  forall fuel states goals st s',
    achieve_all fuel states ops goals st = Ret (Some s') ->
    In kept states -> In kept s'.
Proof.
  intros Hdel fuel states goals st s'. unfold achieve_all.
  apply achieve_all_body_keeps. intros s g st0 s0.
  now apply achieve_keeps.
Qed.

Lemma delete_seed (ops : list Operator) (op : Operator) :
  In op (seed ops) -> exists op0, In op0 ops /\ delete op = delete op0.
Proof.
  unfold seed. rewrite in_map_iff. intros [op0 [<- Hin]]. now exists op0.
Qed.

(** C10, as the code has it: an initial fact that starts with ["Executing "]
    and is in the delete list of no operator is in the plan of every
    successful solve. *)
Theorem initial_executing_fact_in_plan (initial goals : list fact)
        (ops : list Operator) (plan : list string) (f : fact) :
  In f initial ->
  startswith f prefix = true ->
  (forall op, In op ops -> ~ In f (delete op)) ->
  fst (gps initial goals ops) = Returns plan ->
  In f plan.
Proof.
  intros Hin Hstarts Hdel Hplan.
  destruct (gps_cases initial goals ops) as [[final [Hok Hgps]] | [_ Hgps]];
    rewrite Hgps in Hplan; simpl in Hplan; [|discriminate].
  injection Hplan as <-. apply filter_In. split; [|assumption].
  apply (achieve_all_keeps f (seed ops)) in Hok; [assumption | | assumption].
  intros op Hop. destruct (delete_seed ops op Hop) as [op0 [Hop0 ->]].
  now apply Hdel.
Qed.

Lemma initial_executing_fact_in_plan_witness :
  In "Executing x" ["Executing x"; "Executing make g"].
Proof.
  apply (initial_executing_fact_in_plan
           ["Executing x"; "s"] ["g"] [Examples.free_op]
           ["Executing x"; "Executing make g"] "Executing x").
  - simpl. auto.
  - reflexivity.
  - simpl. intros op [<- | []]. simpl. tauto.
  - reflexivity.
Defined.

(** C10 as stated fails: an operator that is applied may delete an initial
    fact that starts with the prefix; the solve succeeds and the plan does
    not hold that fact. *)
Lemma initial_executing_fact_deleted :
  In "Executing x" ["Executing x"; "s"]
  /\ startswith "Executing x" prefix = true
  /\ fst (gps ["Executing x"; "s"] ["g"] [Examples.eraser_op])
     = Returns ["Executing make g"]
  /\ ~ In "Executing x" ["Executing make g"].
Proof.
  repeat split; [simpl; auto|].
  simpl. intros [E | []]. discriminate.
Qed.

(** * Further properties of the search *)

(** ** What a successful search returns *)

Lemma try_operators_adds_goal achieve_rec (cands : list Operator)
      (states : list fact) (goal : fact) (st s' : list fact) :
  try_operators achieve_rec cands states goal st = Ret (Some s') ->
  In goal s'.
Proof.
  induction cands as [|op cands IH]; simpl; [discriminate|].
  destruct (mem goal (add op)) eqn:Hadd; simpl; [|assumption].
  unfold apply_operator_body.
  destruct (achieve_all_body achieve_rec states (preconds op) (goal :: st))
    as [|[r|]]; [discriminate | | assumption].
  destruct (is_empty r); [assumption|].
  match goal with
  | |- context [is_empty ?l] => destruct (is_empty l); [assumption|]
  end.
  intros H. injection H as <-. apply in_or_app. right. now apply mem_In.
Qed.

(** X1: the states that [achieve] returns hold the goal it was asked for,
    whether the goal held before or an operator was applied for it. *)
Theorem achieve_result_holds_goal (fuel : nat) (states : list fact)
        (ops : list Operator) (goal : fact) (goal_stack s' : list fact) :
  achieve fuel states ops goal goal_stack = Ret (Some s') ->
  In goal s'.
Proof.
  destruct fuel; simpl.
  - destruct (mem goal states) eqn:E.
    + intros H. injection H as <-. now apply mem_In.
    + destruct (mem goal goal_stack); discriminate.
  - destruct (mem goal states) eqn:E.
    + intros H. injection H as <-. now apply mem_In.
    + destruct (mem goal goal_stack); [discriminate|].
      apply try_operators_adds_goal.
Qed.

Lemma achieve_result_holds_goal_witness :
  In "g" ["s"; "g"].
Proof.
  apply (achieve_result_holds_goal 2 ["s"] Examples.order_ops "g" []).
  reflexivity.
Defined.

Lemma achieve_all_goals_hold (fuel : nat) (states : list fact)
      (ops : list Operator) (goals st final : list fact) :
  achieve_all fuel states ops goals st = Ret (Some final) ->
  forall g, In g goals -> In g final.
Proof.
  unfold achieve_all, achieve_all_body.
  destruct (achieve_each _ states goals st) as [|[s'|]]; try discriminate.
  destruct (forallb (fun goal => mem goal s') goals) eqn:E; [|discriminate].
  intros H. injection H as <-. now apply forallb_mem.
Qed.

Lemma achieve_each_holding (fuel : nat) (ops : list Operator)
      (states st : list fact) (goals : list fact) :
  (forall g, In g goals -> In g states) ->
  achieve_each (fun s g st' => achieve fuel s ops g st') states goals st
  = Ret (Some states).
Proof.
  induction goals as [|g goals IH]; intros Hall; simpl; [reflexivity|].
  assert (Hg : In g states) by (apply Hall; now left).
  rewrite (achieve_holds fuel states ops g st Hg).
  destruct states as [|x states]; [contradiction|]. simpl.
  apply IH. intros g' Hg'. apply Hall. now right.
Qed.

Lemma achieve_all_holding (fuel : nat) (ops : list Operator)
      (states st : list fact) (goals : list fact) :
  (forall g, In g goals -> In g states) ->
  achieve_all fuel states ops goals st = Ret (Some states).
Proof.
  intros Hall. unfold achieve_all, achieve_all_body.
  rewrite (achieve_each_holding fuel ops states st goals Hall).
  apply forallb_mem in Hall. now rewrite Hall.
Qed.

Lemma filter_none (P : fact -> bool) (l : list fact) :
  (forall x, In x l -> P x = false) -> filter P l = [].
Proof.
  induction l as [|x l IH]; intros H; simpl; [reflexivity|].
  rewrite (H x (or_introl eq_refl)). apply IH. intros y Hy. apply H.
  now right.
Qed.

(** X2: when every goal state is among the initial states (so also when
    there are no goals) no operator is looked at: [achieve_all] returns the
    states it was given and [gps] returns the initial states that start with
    the prefix, the empty plan when there are none. *)
Theorem gps_goals_already_hold (initial goals : list fact)
        (ops : list Operator) :
  (forall g, In g goals -> In g initial) ->
  (forall fuel goal_stack,
      achieve_all fuel initial ops goals goal_stack = Ret (Some initial))
  /\ fst (gps initial goals ops)
     = Returns (filter (fun state => startswith state prefix) initial)
  /\ ((forall x, In x initial -> startswith x prefix = false) ->
      fst (gps initial goals ops) = Returns []).
Proof.
  intros Hall.
  assert (Hgps : fst (gps initial goals ops)
                 = Returns (filter (fun state => startswith state prefix)
                                   initial)).
  { unfold gps. now rewrite (achieve_all_holding _ (seed ops) initial []
                                                   goals Hall). }
  split; [|split].
  - intros fuel st. now apply achieve_all_holding.
  - exact Hgps.
  - intros Hnone. rewrite Hgps. f_equal. now apply filter_none.
Qed.

Lemma gps_goals_already_hold_witness :
  fst (gps ["son at school"; "car works"] ["son at school"]
           SIMPLE_PROBLEM.ops)
  = Returns [].
Proof.
  apply (gps_goals_already_hold ["son at school"; "car works"]
                                ["son at school"] SIMPLE_PROBLEM.ops).
  - simpl. intros g [<- | []]. auto.
  - simpl. intros x [<- | [<- | []]]; reflexivity.
Defined.

(** ** Relating the states a search returns to the states it was given *)

Section SearchInvariant.

Variable ops : list Operator.

(** A relation between states that holds across the effects of every
    operator of the collection applied where its preconditions hold. *)
Variable R : list fact -> list fact -> Prop.
Hypothesis R_refl : forall s, R s s.
Hypothesis R_trans : forall a b c, R a b -> R b c -> R a c.
Hypothesis R_effects :
  forall op s, In op ops -> s <> [] -> applicable s op = true ->
               R s (effects s op).

Section Level.

Variable achieve_rec : list fact -> fact -> list fact -> result.
Hypothesis rec_related :
  forall s g st s', achieve_rec s g st = Ret (Some s') -> R s s'.

Lemma achieve_each_related (goals : list fact) :
  forall states st s',
    achieve_each achieve_rec states goals st = Ret (Some s') -> R states s'.
Proof.
  induction goals as [|g goals IH]; intros states st s'; simpl.
  - intros H. injection H as <-. apply R_refl.
  - destruct (achieve_rec states g st) as [|[s1|]] eqn:E; try discriminate.
    destruct (is_empty s1); [discriminate|].
    intros H. apply (R_trans _ s1); [exact (rec_related _ _ _ _ E)|].
    exact (IH _ _ _ H).
Qed.

Lemma achieve_all_body_related (states goals st s' : list fact) :
  achieve_all_body achieve_rec states goals st = Ret (Some s') ->
  R states s' /\ forallb (fun goal => mem goal s') goals = true.
Proof.
  unfold achieve_all_body.
  destruct (achieve_each achieve_rec states goals st) as [|[s1|]] eqn:E;
    try discriminate.
  destruct (forallb (fun goal => mem goal s1) goals) eqn:Hall;
    [|discriminate].
  intros H. injection H as <-. split; [|assumption].
  exact (achieve_each_related _ _ _ _ E).
Qed.

Lemma apply_operator_body_related op (states : list fact) goal st s' :
  In op ops ->
  apply_operator_body achieve_rec op states goal st = Ret (Some s') ->
  R states s'.
Proof.
  intros Hop. unfold apply_operator_body.
  destruct (achieve_all_body achieve_rec states (preconds op) (goal :: st))
    as [|[s1|]] eqn:E; try discriminate.
  destruct (is_empty s1) eqn:Hne; [discriminate|].
  intros H. injection H as <-.
  destruct (achieve_all_body_related _ _ _ _ E) as [Hrel Hpre].
  apply (R_trans _ s1); [assumption|].
  apply (R_effects op s1 Hop); [now apply is_empty_false | exact Hpre].
Qed.

Lemma try_operators_related (cands : list Operator) states goal st s' :
  incl cands ops ->
  try_operators achieve_rec cands states goal st = Ret (Some s') ->
  R states s'.
Proof.
  induction cands as [|op cands IH]; simpl; [discriminate|].
  intros Hincl.
  assert (Hrest : try_operators achieve_rec cands states goal st
                  = Ret (Some s') -> R states s').
  { apply IH. intros op' Hop'. apply Hincl. now right. }
  destruct (negb (mem goal (add op))); [assumption|].
  destruct (apply_operator_body achieve_rec op states goal st)
    as [|[s1|]] eqn:E; [discriminate | | assumption].
  destruct (is_empty s1); [assumption|].
  intros H. injection H as <-.
  apply (apply_operator_body_related op states goal st); [|assumption].
  apply Hincl. now left.
Qed.

End Level.

Lemma achieve_related (fuel : nat) :
  forall states goal st s',
    achieve fuel states ops goal st = Ret (Some s') -> R states s'.
Proof.
  induction fuel as [|fuel IH]; intros states goal st s'; simpl.
  - destruct (mem goal states).
    + intros H. injection H as <-. apply R_refl.
    + destruct (mem goal st); discriminate.
  - destruct (mem goal states).
    + intros H. injection H as <-. apply R_refl.
    + destruct (mem goal st); [discriminate|].
      apply try_operators_related; [exact IH | apply incl_refl].
Qed.

Lemma achieve_all_related (fuel : nat) (states goals st s' : list fact) :
  achieve_all fuel states ops goals st = Ret (Some s') -> R states s'.
Proof.
  unfold achieve_all. intros H.
  apply (achieve_all_body_related
           (fun s g st' => achieve fuel s ops g st')) in H.
  - exact (proj1 H).
  - apply achieve_related.
Qed.

End SearchInvariant.

(** ** No fact comes from nowhere *)

Lemma achieve_all_facts_known (fuel : nat) (ops : list Operator)
      (states goals st final : list fact) :
  achieve_all fuel states ops goals st = Ret (Some final) ->
  forall x, In x final ->
            In x states \/ exists op, In op ops /\ In x (add op).
Proof.
  apply (achieve_all_related
           ops
           (fun s s' => forall x, In x s' ->
                                  In x s \/ exists op, In op ops
                                                       /\ In x (add op))).
  - intros s x Hx. now left.
  - intros a b c Hab Hbc x Hx.
    destruct (Hbc x Hx) as [Hb | Hop]; [now apply Hab | now right].
  - intros op s Hop _ _ x Hx. unfold effects in Hx.
    apply in_app_or in Hx. destruct Hx as [Hx | Hx].
    + left. apply filter_In in Hx. tauto.
    + right. now exists op.
Qed.

Lemma In_seed (ops : list Operator) (sop : Operator) :
  In sop (seed ops) <-> exists op, In op ops /\ sop = seed_operator op.
Proof.
  unfold seed. rewrite in_map_iff.
  split; intros [op H]; exists op; destruct H; split; congruence.
Qed.

(** X3: the states [achieve_all] returns hold only facts it was given or
    facts of the add list of an operator of the collection; so every entry
    of a plan is an initial state, a fact of an add list as the caller wrote
    it, or the bookkeeping fact of an operator. *)
Theorem gps_plan_entries_known (initial goals : list fact)
        (ops : list Operator) (plan : list string) :
  fst (gps initial goals ops) = Returns plan ->
  forall entry, In entry plan ->
    startswith entry prefix = true
    /\ (In entry initial
        \/ exists op, In op ops
                      /\ (In entry (add op) \/ entry = executing op)).
Proof.
  intros Hplan entry Hentry.
  destruct (gps_cases initial goals ops) as [[final [Hok Hgps]] | [_ Hgps]];
    rewrite Hgps in Hplan; simpl in Hplan; [|discriminate].
  injection Hplan as <-. apply filter_In in Hentry.
  destruct Hentry as [Hin Hstarts]. split; [assumption|].
  destruct (achieve_all_facts_known _ _ _ _ _ _ Hok entry Hin)
    as [H | [sop [Hsop Hadd]]]; [now left | right].
  apply In_seed in Hsop. destruct Hsop as [op [Hop ->]].
  exists op. split; [assumption|]. simpl in Hadd.
  apply in_app_or in Hadd. destruct Hadd as [H | [H | []]];
    [now left | right; now symmetry].
Qed.

Lemma gps_plan_entries_known_witness :
  startswith "Executing second" prefix = true
  /\ (In "Executing second" ["s"]
      \/ exists op, In op Examples.order_ops
                    /\ (In "Executing second" (add op)
                        \/ "Executing second" = executing op)).
Proof.
  apply (gps_plan_entries_known ["s"] ["g"] Examples.order_ops
                                ["Executing second"]).
  - reflexivity.
  - simpl. auto.
Defined.

(** X4: a goal state that is not an initial state, is in no add list and is
    the bookkeeping fact of no operator cannot be achieved: every solve that
    asks for it ends in the [TypeError]. *)
Theorem gps_unreachable_goal_raises (initial goals : list fact)
        (ops : list Operator) (goal : fact) :
  In goal goals ->
  ~ In goal initial ->
  (forall op, In op ops -> ~ In goal (add op) /\ goal <> executing op) ->
  fst (gps initial goals ops) = Raises TypeError.
Proof.
  intros Hgoal Hinit Hops.
  destruct (gps_cases initial goals ops) as [[final [Hok _]] | [_ ->]];
    [|reflexivity].
  exfalso.
  pose proof (achieve_all_goals_hold _ _ _ _ _ _ Hok goal Hgoal) as Hfinal.
  destruct (achieve_all_facts_known _ _ _ _ _ _ Hok goal Hfinal)
    as [H | [sop [Hsop Hadd]]]; [contradiction|].
  apply In_seed in Hsop. destruct Hsop as [op [Hop ->]].
  destruct (Hops op Hop) as [Hnadd Hnexec]. simpl in Hadd.
  apply in_app_or in Hadd. destruct Hadd as [H | [H | []]];
    [contradiction | apply Hnexec; now symmetry].
Qed.

Lemma gps_unreachable_goal_raises_witness :
  fst (gps SIMPLE_PROBLEM.start ["son at school"; "son has lunch"]
           SIMPLE_PROBLEM.ops)
  = Raises TypeError.
Proof.
  apply (gps_unreachable_goal_raises
           SIMPLE_PROBLEM.start ["son at school"; "son has lunch"]
           SIMPLE_PROBLEM.ops "son has lunch").
  - simpl. auto.
  - simpl. intros [E | [E | []]]; discriminate.
  - simpl. intros op [<- | [<- | []]]; simpl; split;
      try discriminate; intros [E | []]; discriminate.
Defined.

(** ** The last operator applied *)

Lemma achieve_all_unchanged_or_applied (fuel : nat) (ops : list Operator)
      (states goals st final : list fact) :
  achieve_all fuel states ops goals st = Ret (Some final) ->
  final = states \/ exists op before, In op ops /\ final = before ++ add op.
Proof.
  apply (achieve_all_related
           ops
           (fun s s' => s' = s \/ exists op before,
                                    In op ops /\ s' = before ++ add op)).
  - intros s. now left.
  - intros a b c Hab [-> | Hc]; [assumption | now right].
  - intros op s Hop _ _. right.
    exists op, (filter (fun state => negb (mem state (delete op))) s).
    now split.
Qed.

Lemma filter_app_last (P : fact -> bool) (l : list fact) (x : fact) :
  P x = true -> filter P (l ++ [x]) = filter P l ++ [x].
Proof.
  intros Hx. rewrite filter_app. simpl. now rewrite Hx.
Qed.

(** X5: when a solve succeeds although some goal state is not among the
    initial states, an operator was applied and the plan is not empty: its
    last entry is the bookkeeping fact of an operator of the collection. *)
Theorem gps_plan_ends_with_operator (initial goals : list fact)
        (ops : list Operator) (plan : list string) (goal : fact) :
  In goal goals ->
  ~ In goal initial ->
  fst (gps initial goals ops) = Returns plan ->
  exists op earlier, In op ops /\ plan = earlier ++ [executing op].
Proof.
  intros Hgoal Hinit Hplan.
  destruct (gps_cases initial goals ops) as [[final [Hok Hgps]] | [_ Hgps]];
    rewrite Hgps in Hplan; simpl in Hplan; [|discriminate].
  injection Hplan as <-.
  destruct (achieve_all_unchanged_or_applied _ _ _ _ _ _ Hok)
    as [-> | [sop [before [Hsop ->]]]].
  - exfalso. apply Hinit.
    exact (achieve_all_goals_hold _ _ _ _ _ _ Hok goal Hgoal).
  - apply In_seed in Hsop. destruct Hsop as [op [Hop ->]].
    exists op.
    exists (filter (fun state => startswith state prefix)
                   (before ++ add op)).
    split; [assumption|]. simpl. rewrite app_assoc.
    apply filter_app_last. apply app_prefix.
Qed.

Lemma gps_plan_ends_with_operator_witness :
  exists op earlier,
    In op SIMPLE_PROBLEM.ops
    /\ ["Executing shop installs battery"; "Executing drive son to school"]
       = earlier ++ [executing op].
Proof.
  apply (gps_plan_ends_with_operator
           SIMPLE_PROBLEM.start SIMPLE_PROBLEM.finish SIMPLE_PROBLEM.ops
           _ "son at school").
  - simpl. auto.
  - simpl. intros [E | [E | []]]; discriminate.
  - reflexivity.
Defined.

(** ** Facts are lost to delete lists only *)

(** X6: a fact of the states given to [achieve_all] that is missing from
    the states it returns is in the delete list of an operator of the
    collection. *)
Theorem achieve_all_loses_only_deleted (fuel : nat) (states : list fact)
        (ops : list Operator) (goals goal_stack final : list fact)
        (f : fact) :
  achieve_all fuel states ops goals goal_stack = Ret (Some final) ->
  In f states ->
  ~ In f final ->
  exists op, In op ops /\ In f (delete op).
Proof.
  intros Hok Hin Hout.
  destruct (existsb (fun op => mem f (delete op)) ops) eqn:E.
  - apply existsb_exists in E. destruct E as [op [Hop Hdel]].
    exists op. split; [assumption | now apply mem_In].
  - exfalso. apply Hout.
    apply (achieve_all_keeps f ops) with (fuel := fuel) (states := states)
                                         (goals := goals) (st := goal_stack);
      [|assumption|assumption].
    intros op Hop Hdel.
    assert (Htrue : existsb (fun op => mem f (delete op)) ops = true).
    { apply existsb_exists. exists op. split; [assumption|].
      now apply mem_In. }
    congruence.
Qed.

Lemma achieve_all_loses_only_deleted_witness :
  exists op, In op SIMPLE_PROBLEM.ops /\ In "son at home" (delete op).
Proof.
  apply (achieve_all_loses_only_deleted
           2 SIMPLE_PROBLEM.start SIMPLE_PROBLEM.ops SIMPLE_PROBLEM.finish []
           ["car works"; "son at school"] "son at home").
  - reflexivity.
  - simpl. auto.
  - simpl. intros [E | [E | []]]; discriminate.
Defined.

(** ** The empty result *)

(** X7: [achieve_all] returns the empty list exactly when it is given no
    states and no goals; with a goal to achieve, a list it returns is never
    empty. *)
Theorem achieve_all_empty_result (fuel : nat) (states : list fact)
        (ops : list Operator) (goals goal_stack : list fact) :
  achieve_all fuel states ops goals goal_stack = Ret (Some [])
  <-> states = [] /\ goals = [].
Proof.
  split.
  - intros H. destruct goals as [|g goals].
    + split; [|reflexivity].
      unfold achieve_all, achieve_all_body in H. simpl in H. congruence.
    + exfalso.
      exact (achieve_all_goals_hold _ _ _ _ _ _ H g (or_introl eq_refl)).
  - intros [-> ->]. reflexivity.
Qed.

Lemma achieve_all_empty_result_witness :
  achieve_all 3 [] Examples.order_ops [] ["g"] = Ret (Some []).
Proof.
  apply (proj2 (achieve_all_empty_result 3 [] Examples.order_ops [] ["g"])).
  split; reflexivity.
Defined.

(** ** A plan can be carried out *)

Lemma run_operators_app (applied1 applied2 : list Operator) :
  forall states,
    run_operators states (applied1 ++ applied2)
    = match run_operators states applied1 with
      | Some states' => run_operators states' applied2
      | None => None
      end.
Proof.
  induction applied1 as [|op applied1 IH]; intros states; simpl;
    [reflexivity|].
  destruct (applicable states op); [apply IH | reflexivity].
Qed.

Lemma achieve_all_is_run (fuel : nat) (ops : list Operator)
      (states goals st final : list fact) :
  achieve_all fuel states ops goals st = Ret (Some final) ->
  exists applied,
    Forall (fun op => In op ops) applied
    /\ run_operators states applied = Some final.
Proof.
  apply (achieve_all_related
           ops
           (fun s s' => exists applied,
                          Forall (fun op => In op ops) applied
                          /\ run_operators s applied = Some s')).
  - intros s. exists []. split; [constructor | reflexivity].
  - intros a b c [l1 [H1 R1]] [l2 [H2 R2]]. exists (l1 ++ l2). split.
    + apply Forall_app. now split.
    + now rewrite run_operators_app, R1.
  - intros op s Hop _ Happ. exists [op]. split.
    + constructor; [assumption | constructor].
    + simpl. now rewrite Happ.
Qed.

Lemma seeded_operators (ops : list Operator) (applied : list Operator) :
  Forall (fun sop => In sop (seed ops)) applied ->
  exists applied0,
    applied = seed applied0 /\ Forall (fun op => In op ops) applied0.
Proof.
  induction applied as [|sop applied IH]; intros H.
  - exists []. split; [reflexivity | constructor].
  - inversion H as [|? ? Hsop Hrest]; subst.
    destruct (IH Hrest) as [applied0 [-> H0]].
    apply In_seed in Hsop. destruct Hsop as [op [Hop ->]].
    exists (op :: applied0). split; [reflexivity | now constructor].
Qed.

Lemma gps_runs_operators (initial goals : list fact) (ops : list Operator)
      (plan : list string) :
  fst (gps initial goals ops) = Returns plan ->
  exists applied final,
    Forall (fun op => In op ops) applied
    /\ run_operators initial (seed applied) = Some final
    /\ (forall g, In g goals -> In g final)
    /\ plan = filter (fun state => startswith state prefix) final.
Proof.
  intros Hplan.
  destruct (gps_cases initial goals ops) as [[final [Hok Hgps]] | [_ Hgps]];
    rewrite Hgps in Hplan; simpl in Hplan; [|discriminate].
  injection Hplan as <-.
  destruct (achieve_all_is_run _ _ _ _ _ _ Hok) as [sapplied [Hin Hrun]].
  destruct (seeded_operators ops sapplied Hin) as [applied [-> Happlied]].
  exists applied, final. repeat split; try assumption.
  exact (achieve_all_goals_hold _ _ _ _ _ _ Hok).
Qed.

(** X8: behind every plan that [gps] returns there is a sequence of
    operators of the collection that can be carried out from the initial
    states one after the other, each with all its preconditions holding when
    its turn comes, and that ends in states where every goal state holds;
    the plan is read off those states. *)
Theorem gps_plan_can_be_carried_out (initial goals : list fact)
        (ops : list Operator) (plan : list string) :
  fst (gps initial goals ops) = Returns plan ->
  exists applied final,
    Forall (fun op => In op ops) applied
    /\ run_operators initial (seed applied) = Some final
    /\ (forall g, In g goals -> In g final)
    /\ plan = filter (fun state => startswith state prefix) final.
Proof. apply gps_runs_operators. Qed.

Lemma gps_plan_can_be_carried_out_witness :
  exists applied final,
    Forall (fun op => In op SIMPLE_PROBLEM.ops) applied
    /\ run_operators SIMPLE_PROBLEM.start (seed applied) = Some final
    /\ (forall g, In g SIMPLE_PROBLEM.finish -> In g final)
    /\ ["Executing shop installs battery"; "Executing drive son to school"]
       = filter (fun state => startswith state prefix) final.
Proof.
  apply (gps_plan_can_be_carried_out
           SIMPLE_PROBLEM.start SIMPLE_PROBLEM.finish SIMPLE_PROBLEM.ops).
  reflexivity.
Defined.

(** ** The plan lists the operators applied *)

Lemma filter_filter_keep (P Q : fact -> bool) (l : list fact) :
  (forall x, In x l -> P x = true -> Q x = true) ->
  filter P (filter Q l) = filter P l.
Proof.
  induction l as [|x l IH]; intros H; simpl; [reflexivity|].
  assert (IH' : filter P (filter Q l) = filter P l).
  { apply IH. intros y Hy. apply H. now right. }
  destruct (Q x) eqn:HQ; simpl.
  - now rewrite IH'.
  - destruct (P x) eqn:HP; [|assumption].
    rewrite (H x (or_introl eq_refl) HP) in HQ. discriminate.
Qed.

Lemma filter_prefix_seeded_add (op : Operator) :
  (forall x, In x (add op) -> startswith x prefix = false) ->
  filter (fun state => startswith state prefix) (add (seed_operator op))
  = [executing op].
Proof.
  intros Hadd. unfold seed_operator. cbn [add].
  rewrite filter_app, (filter_none _ (add op) Hadd).
  cbn [filter app]. unfold startswith. now rewrite app_prefix.
Qed.

Lemma run_seeded_bookkeeping (applied : list Operator) :
  Forall prefix_free applied ->
  forall states final,
    run_operators states (seed applied) = Some final ->
    filter (fun state => startswith state prefix) final
    = filter (fun state => startswith state prefix) states
      ++ map executing applied.
Proof.
  induction applied as [|op applied IH]; intros Hfree states final; simpl.
  - intros H. injection H as <-. now rewrite app_nil_r.
  - inversion Hfree as [|? ? [Hadd Hdel] Hrest]; subst.
    destruct (applicable states (seed_operator op)); [|discriminate].
    intros Hrun. rewrite (IH Hrest _ _ Hrun).
    unfold effects. rewrite filter_app, (filter_prefix_seeded_add op Hadd).
    rewrite filter_filter_keep.
    + now rewrite <- app_assoc.
    + intros x _ Hx. simpl.
      destruct (mem x (delete op)) eqn:E; [|reflexivity].
      apply mem_In in E. rewrite (Hdel x E) in Hx. discriminate.
Qed.

(** X9: when no initial state and no add or delete fact of any operator
    starts with ["Executing "], the plan is exactly the list of the
    bookkeeping facts of the operators applied, in the order in which they
    were applied (an operator applied twice is listed twice), and carrying
    those operators out from the initial states achieves every goal
    state. *)
Theorem gps_plan_lists_applied_operators (initial goals : list fact)
        (ops : list Operator) (plan : list string) :
  (forall x, In x initial -> startswith x prefix = false) ->
  Forall prefix_free ops ->
  fst (gps initial goals ops) = Returns plan ->
  exists applied final,
    Forall (fun op => In op ops) applied
    /\ run_operators initial (seed applied) = Some final
    /\ (forall g, In g goals -> In g final)
    /\ plan = map executing applied.
Proof.
  intros Hinit Hfree Hplan.
  destruct (gps_runs_operators initial goals ops plan Hplan)
    as [applied [final [Happlied [Hrun [Hgoals ->]]]]].
  exists applied, final. repeat split; try assumption.
  rewrite (run_seeded_bookkeeping applied) with (states := initial);
    [|
     | exact Hrun].
  - now rewrite (filter_none _ initial Hinit).
  - apply Forall_forall. intros op Hop.
    rewrite Forall_forall in Hfree, Happlied. apply Hfree. now apply Happlied.
Qed.

Lemma gps_plan_lists_applied_operators_witness :
  exists applied final,
    Forall (fun op => In op SIMPLE_PROBLEM.ops) applied
    /\ run_operators SIMPLE_PROBLEM.start (seed applied) = Some final
    /\ (forall g, In g SIMPLE_PROBLEM.finish -> In g final)
    /\ ["Executing shop installs battery"; "Executing drive son to school"]
       = map executing applied.
Proof.
  apply (gps_plan_lists_applied_operators
           SIMPLE_PROBLEM.start SIMPLE_PROBLEM.finish SIMPLE_PROBLEM.ops).
  - simpl. intros x [<- | [<- | []]]; reflexivity.
  - repeat constructor; simpl; intros x H;
      repeat (destruct H as [<- | H]; [reflexivity|]); contradiction.
  - reflexivity.
Defined.

(** * The command line *)

Lemma substring_whole (s : string) :
  String.substring 0 (String.length s) s = s.
Proof. induction s as [|c s IH]; simpl; [reflexivity | now rewrite IH]. Qed.

Lemma substring_after (p s : string) :
  String.substring (String.length p)
                   (String.length (String.append p s) - String.length p)
                   (String.append p s)
  = s.
Proof.
  induction p as [|c p IH]; simpl.
  - rewrite Nat.sub_0_r. apply substring_whole.
  - exact IH.
Qed.

Section CommandLineFacts.

Variable load_problem :
  string -> option (list fact * list fact * list Operator).
Variable logging_setup_raises : string -> bool.

Lemma main_without_option (file : string) (rest : list string) :
  startswith file "--log=" = false ->
  main load_problem logging_setup_raises (file :: rest)
  = solve_file load_problem [file] None.
Proof.
  intros Hfile. unfold main.
  cbn [check_usage List.length Nat.ltb Nat.leb hd]. now rewrite Hfile.
Qed.

Lemma main_with_option (level : string) (rest : list string) :
  main load_problem logging_setup_raises (String.append "--log=" level :: rest)
  = if logging_setup_raises level
    then mkRun [] (Some level) LoggingFailed
    else match check_usage rest with
         | Some (line, code) => mkRun [line] (Some level) (SystemExit code)
         | None => solve_file load_problem rest (Some level)
         end.
Proof.
  unfold main. cbn [check_usage List.length Nat.ltb Nat.leb hd tl].
  unfold startswith. rewrite app_prefix. cbv zeta.
  now rewrite (substring_after "--log=" level).
Qed.

(** X10: without arguments, or with, as the only argument, a [--log=]
    option whose level name the logging setup accepts, [main] prints the
    usage line and exits with status 1; no file is read. *)
Theorem main_usage (args : list string) :
  (args = []
   \/ exists level, args = [String.append "--log=" level]
                    /\ logging_setup_raises level = false) ->
  stdout (main load_problem logging_setup_raises args) = [USAGE]
  /\ ended (main load_problem logging_setup_raises args) = SystemExit 1.
Proof.
  intros [-> | [level [-> Hok]]]; [split; reflexivity|].
  rewrite main_with_option, Hok. split; reflexivity.
Qed.

(** X11: with a problem file as first argument, [main] prints the entries
    of the plan that [gps] returns for the problem in the file, one per
    line and in order, and returns; when the search fails it prints nothing
    and the [TypeError] of [gps] ends the run. *)
Theorem main_prints_plan (file : string) (more : list string)
        (start finish : list fact) (ops : list Operator) :
  startswith file "--log=" = false ->
  load_problem file = Some (start, finish, ops) ->
  (forall plan,
      fst (gps start finish ops) = Returns plan ->
      main load_problem logging_setup_raises (file :: more)
      = mkRun plan None Finished)
  /\ ((forall plan, fst (gps start finish ops) <> Returns plan) ->
      main load_problem logging_setup_raises (file :: more)
      = mkRun [] None (Uncaught TypeError)).
Proof.
  intros Hfile Hload.
  rewrite (main_without_option file more Hfile).
  unfold solve_file. cbn [hd]. rewrite Hload.
  split.
  - intros plan ->. reflexivity.
  - intros Hno.
    destruct (gps_cases start finish ops) as [[final [_ Hg]] | [_ Hg]].
    + exfalso. apply (Hno (filter (fun state => startswith state prefix)
                                  final)).
      now rewrite Hg.
    + now rewrite Hg.
Qed.


End CommandLineFacts.

Lemma main_usage_witness :
  stdout (main (fun _ => None) (String.eqb "basic_format") ["--log=debug"])
  = [USAGE]
  /\ ended (main (fun _ => None) (String.eqb "basic_format") ["--log=debug"])
     = SystemExit 1.
Proof.
  apply (main_usage (fun _ => None) (String.eqb "basic_format")
                    ["--log=debug"]).
  right. exists "debug". split; reflexivity.
Defined.

Lemma main_prints_plan_witness :
  main (fun _ => Some (SIMPLE_PROBLEM.start, SIMPLE_PROBLEM.finish,
                       SIMPLE_PROBLEM.ops))
       (String.eqb "basic_format")
       ["problem.json"]
  = mkRun ["Executing shop installs battery"; "Executing drive son to school"]
          None Finished.
Proof.
  apply (proj1 (main_prints_plan
                  (fun _ => Some (SIMPLE_PROBLEM.start, SIMPLE_PROBLEM.finish,
                                  SIMPLE_PROBLEM.ops))
                  (String.eqb "basic_format")
                  "problem.json" [] SIMPLE_PROBLEM.start
                  SIMPLE_PROBLEM.finish SIMPLE_PROBLEM.ops
                  eq_refl eq_refl)).
  reflexivity.
Defined.


(** * Precondition cycles *)

(** A set of facts each of which is added only by operators that require a
    fact of the set: when none of them holds, none of them ever will. *)
Lemma achieve_all_avoids_cycle (cycle : fact -> Prop) (ops : list Operator) :
  (forall op, In op ops ->
              (exists x, In x (add op) /\ cycle x) ->
              exists p, In p (preconds op) /\ cycle p) ->
  forall fuel states goals st final,
    achieve_all fuel states ops goals st = Ret (Some final) ->
    (forall x, In x states -> ~ cycle x) ->
    forall x, In x final -> ~ cycle x.
Proof.
  intros Hclosed fuel states goals st final.
  apply (achieve_all_related
           ops
           (fun s s' => (forall x, In x s -> ~ cycle x) ->
                        forall x, In x s' -> ~ cycle x)).
  - intros s H. exact H.
  - intros a b c Hab Hbc Ha. apply Hbc. now apply Hab.
  - intros op s Hop _ Happ Hs x Hx Hcyc. unfold effects in Hx.
    apply in_app_or in Hx. destruct Hx as [Hx | Hx].
    + apply filter_In in Hx. exact (Hs x (proj1 Hx) Hcyc).
    + destruct (Hclosed op Hop (ex_intro _ x (conj Hx Hcyc)))
        as [p [Hp Hpc]].
      unfold applicable in Happ. rewrite forallb_mem in Happ.
      exact (Hs p (Happ p Hp) Hpc).
Qed.

(** C5, as the code has it: a target fact that is on the goal stack and does
    not hold in the states makes [achieve] fail at once, with no recursive
    call (the result does not depend on the fuel, zero included); a target
    that holds is returned as achieved even when it is on the goal stack.
    Every search returns within a recursion depth of the number of goal and
    precondition facts, and on operators whose preconditions form a cycle
    with a goal it returns failure: the goal is in a set of facts, none of
    them holding at the start, each of which is added only by operators that
    have a precondition in the set (a cycle of any length, through any of the
    preconditions). *)
Theorem achieve_detects_cycle (fuel : nat) (states : list fact)
        (ops : list Operator) (goal : fact) (goal_stack : list fact) :
  In goal goal_stack ->
  (~ In goal states -> achieve fuel states ops goal goal_stack = Ret None)
  /\ (In goal states ->
      achieve fuel states ops goal goal_stack = Ret (Some states))
  /\ (forall initial goals,
         achieve_all (depth_bound goals ops) initial ops goals []
         <> OutOfFuel)
  /\ (forall (cycle : fact -> Prop) initial goals,
         (exists g, In g goals /\ cycle g) ->
         (forall x, In x initial -> ~ cycle x) ->
         (forall op, In op ops ->
                     (exists x, In x (add op) /\ cycle x) ->
                     exists p, In p (preconds op) /\ cycle p) ->
         achieve_all (depth_bound goals ops) initial ops goals [] = Ret None).
Proof.
  intros Hstack. repeat split.
  - intros Hs. now apply achieve_on_stack.
  - apply achieve_holds.
  - intros initial goals. apply achieve_all_depth_bound.
  - intros cycle initial goals [g [Hg Hcyc]] Hinit Hclosed.
    pose proof (achieve_all_depth_bound initial goals ops) as Htotal.
    destruct (achieve_all (depth_bound goals ops) initial ops goals [])
      as [|[final|]] eqn:E; [congruence | | reflexivity].
    exfalso.
    apply (achieve_all_avoids_cycle cycle ops Hclosed _ _ _ _ _ E Hinit g);
      [|assumption].
    exact (achieve_all_goals_hold _ _ _ _ _ _ E g Hg).
Qed.

Lemma achieve_detects_cycle_witness :
  (In "a" ["b"; "a"]
   /\ achieve 0 ["s"] Examples.cycle_ops "a" ["b"; "a"] = Ret None)
  /\ achieve_all (depth_bound ["a"] (seed Examples.long_cycle_ops)) ["s"]
                 (seed Examples.long_cycle_ops) ["a"] []
     = Ret None.
Proof.
  assert (H : In "a" ["b"; "a"]) by (simpl; auto).
  split; [split; [exact H|] |].
  - apply (proj1 (achieve_detects_cycle 0 ["s"] Examples.cycle_ops "a"
                    ["b"; "a"] H)).
    simpl. intros [E | []]. discriminate.
  - apply (proj2 (proj2 (proj2 (achieve_detects_cycle
                                  0 ["s"] (seed Examples.long_cycle_ops) "a"
                                  ["b"; "a"] H)))
             (fun x => In x ["a"; "b"; "c"]) ["s"] ["a"]).
    + exists "a". simpl. auto.
    + simpl. intros x [<- | []] [E | [E | [E | []]]]; discriminate.
    + simpl. intros op [<- | [<- | [<- | []]]] _; simpl.
      * exists "b". auto.
      * exists "c". auto 6.
      * exists "a". auto.
Defined.
